(** * Constant tables and task prototypes of the robotic-arm control firmware

    The repository consists of four C++ headers:

    - [Projects/Arm_Rev_B/main/constants.h]: register map of the BNO055 and
      MPU6050 IMUs, GPIO pins and PWM bounds of the arm joints;
    - [Projects/IMU_Control/main/constants.h]: the IMU register map alone;
    - [Projects/FPI_Control/main/RTOStasks.h] and
      [Projects/MC_Command_Servo/main/RTOStasks.h]: prototypes of the RTOS
      task entry points.

    Each header is embedded as the list of its lines that are not blank or
    comments, in source order.  Macro bodies and literals are kept as the
    text the header has; their values are computed by the literal readers of
    module [Lit], the conversions of module [Cpp] and the translation phase
    of module [Preproc]. *)

From Stdlib Require Import ZArith QArith Bool Ascii String List Lia.
From Stdlib Require Import Floats.SpecFloat.
From stdpp Require Import base option strings gmap list fin_maps.

Open Scope Z_scope.

(** ** Integer and floating literals *)

Module Lit.

(** Value of a character as a digit of base up to sixteen. *)
Definition digit_val (c : ascii) : option Z :=
  let n := Z.of_N (N_of_ascii c) in
  if (48 <=? n) && (n <=? 57) then Some (n - 48)
  else if (97 <=? n) && (n <=? 102) then Some (n - 87)
  else if (65 <=? n) && (n <=? 70) then Some (n - 55)
  else None.

Fixpoint digits_val (base acc : Z) (cs : list ascii) : option Z :=
  match cs with
  | [] => Some acc
  | c :: cs' =>
      match digit_val c with
      | Some d => if d <? base then digits_val base (acc * base + d) cs' else None
      | None => None
      end
  end.

(** An integer literal without suffix: [0x] or [0X] and hexadecimal digits,
    [0] and octal digits, or a decimal number. *)
Definition parse_int_literal (s : string) : option Z :=
  match list_ascii_of_string s with
  | [] => None
  | "0"%char :: "x"%char :: d :: ds => digits_val 16 0 (d :: ds)
  | "0"%char :: "X"%char :: d :: ds => digits_val 16 0 (d :: ds)
  | "0"%char :: ds => digits_val 8 0 ds
  | ds => digits_val 10 0 ds
  end.

(** Splits the characters of a floating literal at its point. *)
Fixpoint split_point (cs : list ascii) : option (list ascii * list ascii) :=
  match cs with
  | [] => None
  | c :: cs' =>
      if Ascii.eqb c "."%char then Some ([], cs')
      else match split_point cs' with
           | Some (a, b) => Some (c :: a, b)
           | None => None
           end
  end.

(** A floating literal of the form digits, point, digits (one side may be
    empty, not both), read as the pair [(m, k)] standing for [m / 10^k]. *)
Definition parse_decimal (s : string) : option (Z * Z) :=
  match split_point (list_ascii_of_string s) with
  | Some (a, b) =>
      match a, b with
      | [], [] => None
      | _, _ =>
          match digits_val 10 0 (a ++ b) with
          | Some m => Some (m, Z.of_nat (length b))
          | None => None
          end
      end
  | None => None
  end.

End Lit.

(** ** Arithmetic types of the headers *)

Module Cpp.

(** [double] is IEEE 754 binary64: 53 bits of precision, [emax = 1024]. *)
Definition prec : Z := 53.
Definition emax : Z := 1024.
Definition double := spec_float.

Definition double_of_Z (z : Z) : double := binary_normalize prec emax z 0 false.
Definition double_div : double -> double -> double := SFdiv prec emax.

(** The rational a finite [double] stands for, in lowest terms. *)
Definition double_Q (d : double) : option Q :=
  match d with
  | S754_zero _ => Some (0 # 1)%Q
  | S754_finite s m e =>
      Some (Qred ((if s then -1 # 1 else 1 # 1) * inject_Z (Z.pos m) * (2 # 1) ^ e))%Q
  | S754_infinity _ | S754_nan => None
  end.

(** Truncation of a [double] towards zero. *)
Definition double_trunc (d : double) : option Z :=
  match d with
  | S754_zero _ => Some 0
  | S754_finite s m e =>
      let a := if 0 <=? e then Z.pos m * 2 ^ e else Z.pos m / 2 ^ (- e) in
      Some (if s then - a else a)
  | S754_infinity _ | S754_nan => None
  end.

Definition INT_MIN : Z := - 2 ^ 31.
Definition INT_MAX : Z := 2 ^ 31 - 1.
Definition UINT32_MAX : Z := 2 ^ 32 - 1.

Definition in_int (z : Z) : bool := (INT_MIN <=? z) && (z <=? INT_MAX).
Definition wrap_u32 (z : Z) : Z := z mod 2 ^ 32.
Definition wrap_int (z : Z) : Z := (z + 2 ^ 31) mod 2 ^ 32 - 2 ^ 31.

Inductive ctype : Type :=
  | TVoid
  | TInt
  | TUInt32
  | TDouble
  | TPtr (t : ctype).

Inductive value : Type :=
  | VInt (z : Z)
  | VUInt32 (z : Z)
  | VDouble (d : double).

(** Initialiser expressions: the headers use integer literals, floating
    literals and unary minus. *)
Inductive expr : Type :=
  | EIntLit (s : string)
  | EFloatLit (s : string)
  | ENeg (e : expr).

(** Constant evaluation.  An unsuffixed integer literal that fits [int] has
    type [int]; larger ones are outside the fragment.  Signed overflow is
    not a constant expression. *)
Fixpoint eval (e : expr) : option value :=
  match e with
  | EIntLit s =>
      match Lit.parse_int_literal s with
      | Some z => if in_int z then Some (VInt z) else None
      | None => None
      end
  | EFloatLit s =>
      match Lit.parse_decimal s with
      | Some (m, k) => Some (VDouble (double_div (double_of_Z m) (double_of_Z (10 ^ k))))
      | None => None
      end
  | ENeg e' =>
      match eval e' with
      | Some (VInt z) => if in_int (- z) then Some (VInt (- z)) else None
      | Some (VUInt32 z) => Some (VUInt32 (wrap_u32 (- z)))
      | Some (VDouble d) => Some (VDouble (SFopp d))
      | None => None
      end
  end.

(** Implicit conversion of an initialiser to the declared type. *)
Definition convert (t : ctype) (v : value) : option value :=
  match t, v with
  | TInt, VInt z => Some (VInt z)
  | TInt, VUInt32 z => Some (VInt (wrap_int z))
  | TInt, VDouble d =>
      match double_trunc d with
      | Some z => if in_int z then Some (VInt z) else None
      | None => None
      end
  | TUInt32, VInt z => Some (VUInt32 (wrap_u32 z))
  | TUInt32, VUInt32 z => Some (VUInt32 z)
  | TUInt32, VDouble d =>
      match double_trunc d with
      | Some z => if (0 <=? z) && (z <=? UINT32_MAX) then Some (VUInt32 z) else None
      | None => None
      end
  | TDouble, VInt z => Some (VDouble (double_of_Z z))
  | TDouble, VUInt32 z => Some (VDouble (double_of_Z z))
  | TDouble, VDouble d => Some (VDouble d)
  | TVoid, _ | TPtr _, _ => None
  end.

(** The common type of the usual arithmetic conversions. *)
Definition common_type (a b : value) : ctype :=
  match a, b with
  | VDouble _, _ | _, VDouble _ => TDouble
  | VUInt32 _, _ | _, VUInt32 _ => TUInt32
  | VInt _, VInt _ => TInt
  end.

(** The operator [<] on two arithmetic values. *)
Definition lt (a b : value) : option bool :=
  let t := common_type a b in
  match convert t a, convert t b with
  | Some (VInt x), Some (VInt y) => Some (x <? y)
  | Some (VUInt32 x), Some (VUInt32 y) => Some (x <? y)
  | Some (VDouble x), Some (VDouble y) => Some (SFltb x y)
  | _, _ => None
  end.

(** The operator [<=]. *)
Definition le (a b : value) : option bool :=
  let t := common_type a b in
  match convert t a, convert t b with
  | Some (VInt x), Some (VInt y) => Some (x <=? y)
  | Some (VUInt32 x), Some (VUInt32 y) => Some (x <=? y)
  | Some (VDouble x), Some (VDouble y) => Some (SFleb x y)
  | _, _ => None
  end.

(** The mathematical value of an arithmetic value. *)
Definition exact (v : value) : option Q :=
  match v with
  | VInt z | VUInt32 z => Some (inject_Z z)
  | VDouble d => double_Q d
  end.

End Cpp.


(** ** Translation of a header *)

Module Preproc.
Import Cpp.

Inductive linkage : Type :=
  | LinkC
  | LinkCpp.

(** Statements of a function body.  The headers have no body; the type is
    there for the statement that they have none. *)
Inductive stmt : Type :=
  | SAssign (x : string) (e : expr)
  | SExpr (e : expr)
  | SReturn (e : option expr).

(** One line of a header.  [LinkageOpen l] is the line [extern "C" {] and
    [LinkageClose] its closing brace; the linkage of [Proto] and [FunDef] is
    the one written on the declaration itself, if any. *)
Inductive item : Type :=
  | Include (angle : bool) (file : string)
  | PragmaOnce
  | IfDef (m : string)
  | IfNDef (m : string)
  | EndIf
  | Define (m : string) (body : string)
  | Undef (m : string)
  | LinkageOpen (l : linkage)
  | LinkageClose
  | Constexpr (t : ctype) (x : string) (init : expr)
  | Proto (l : option linkage) (ret : ctype) (f : string)
      (params : list (ctype * string))
  | FunDef (l : option linkage) (ret : ctype) (f : string)
      (params : list (ctype * string)) (body : list stmt).

(** What a translated header declares. *)
Inductive decl : Type :=
  | DConst (t : ctype) (x : string) (v : value)
  | DProto (l : linkage) (ret : ctype) (f : string) (params : list ctype)
  | DFun (l : linkage) (ret : ctype) (f : string) (params : list ctype)
      (body : list stmt).

(** State of the translation: the macros defined so far, the stack of open
    conditional groups (each entry tells whether its lines are kept), the
    stack of open linkage blocks and the declarations seen so far. *)
Record state : Type := mkState {
  macros : gmap string string;
  conds : list bool;
  links : list linkage;
  decls : list decl
}.

Definition init (predef : gmap string string) : state :=
  mkState predef [] [] [].

Definition active (st : state) : bool := forallb id (conds st).

Definition defined (st : state) (m : string) : bool :=
  match macros st !! m with Some _ => true | None => false end.

Definition effective_linkage (st : state) (l : option linkage) : linkage :=
  match l with
  | Some l' => l'
  | None => match links st with l' :: _ => l' | [] => LinkCpp end
  end.

Fixpoint constant_of (ds : list decl) (x : string) : option value :=
  match ds with
  | [] => None
  | DConst _ y v :: ds' => if String.eqb x y then Some v else constant_of ds' x
  | _ :: ds' => constant_of ds' x
  end.

(** One line.  [None] is an ill-formed program: [#endif] or a closing brace
    without an opening, a macro redefined with another replacement list, a
    constant declared twice or with an initialiser that is not a constant
    expression of an arithmetic type.  Files named by [#include] are not
    part of the repository: what they define is in the initial state. *)
Definition step (st : state) (i : item) : option state :=
  match i with
  | Include _ _ | PragmaOnce => Some st
  | IfDef m =>
      Some (mkState (macros st) ((active st && defined st m) :: conds st)
              (links st) (decls st))
  | IfNDef m =>
      Some (mkState (macros st) ((active st && negb (defined st m)) :: conds st)
              (links st) (decls st))
  | EndIf =>
      match conds st with
      | _ :: cs => Some (mkState (macros st) cs (links st) (decls st))
      | [] => None
      end
  | Define m body =>
      if active st then
        match macros st !! m with
        | Some body' => if String.eqb body body' then Some st else None
        | None => Some (mkState (<[m := body]> (macros st)) (conds st)
                          (links st) (decls st))
        end
      else Some st
  | Undef m =>
      if active st then
        Some (mkState (delete m (macros st)) (conds st) (links st) (decls st))
      else Some st
  | LinkageOpen l =>
      if active st then
        Some (mkState (macros st) (conds st) (l :: links st) (decls st))
      else Some st
  | LinkageClose =>
      if active st then
        match links st with
        | _ :: ls => Some (mkState (macros st) (conds st) ls (decls st))
        | [] => None
        end
      else Some st
  | Constexpr t x init =>
      if active st then
        match constant_of (decls st) x, eval init with
        | None, Some v0 =>
            match convert t v0 with
            | Some v => Some (mkState (macros st) (conds st) (links st)
                                (decls st ++ [DConst t x v]))
            | None => None
            end
        | _, _ => None
        end
      else Some st
  | Proto l ret f params =>
      if active st then
        Some (mkState (macros st) (conds st) (links st)
                (decls st ++ [DProto (effective_linkage st l) ret f (map fst params)]))
      else Some st
  | FunDef l ret f params body =>
      if active st then
        Some (mkState (macros st) (conds st) (links st)
                (decls st ++ [DFun (effective_linkage st l) ret f (map fst params) body]))
      else Some st
  end.

Fixpoint run (st : state) (items : list item) : option state :=
  match items with
  | [] => Some st
  | i :: items' =>
      match step st i with
      | Some st' => run st' items'
      | None => None
      end
  end.

(** A whole header: every conditional group and linkage block is closed. *)
Definition translate (predef : gmap string string) (h : list item) : option state :=
  match run (init predef) h with
  | Some st =>
      match conds st, links st with
      | [], [] => Some st
      | _, _ => None
      end
  | None => None
  end.

(** The state after the first [n] lines of a header. *)
Definition state_at (predef : gmap string string) (h : list item) (n : nat)
  : option state :=
  run (init predef) (take n h).

(** Replacement list of macro [m] as seen after the first [n] lines. *)
Definition read_macro (predef : gmap string string) (h : list item) (n : nat)
    (m : string) : option string :=
  match state_at predef h n with
  | Some st => macros st !! m
  | None => None
  end.

(** Value of the constant [x] as seen after the first [n] lines. *)
Definition read_constant (predef : gmap string string) (h : list item) (n : nat)
    (x : string) : option value :=
  match state_at predef h n with
  | Some st => constant_of (decls st) x
  | None => None
  end.

(** Value of macro [m] where the header is included first in a translation
    unit: its replacement list read as an integer literal. *)
Definition macro (h : list item) (m : string) : option Z :=
  match translate ∅ h with
  | Some st =>
      match macros st !! m with
      | Some body => Lit.parse_int_literal body
      | None => None
      end
  | None => None
  end.

(** Value of the [constexpr] constant [x] of a header. *)
Definition constant (h : list item) (x : string) : option value :=
  match translate ∅ h with
  | Some st => constant_of (decls st) x
  | None => None
  end.

(** The bodies a header writes for macro [m], in source order. *)
Fixpoint bodies_of (h : list item) (m : string) : list string :=
  match h with
  | [] => []
  | Define m' body :: h' =>
      if String.eqb m m' then body :: bodies_of h' m else bodies_of h' m
  | _ :: h' => bodies_of h' m
  end.

(** Names of the macros a header defines, in source order. *)
Fixpoint macro_names (h : list item) : list string :=
  match h with
  | [] => []
  | Define m _ :: h' => m :: macro_names h'
  | _ :: h' => macro_names h'
  end.

(** Lines that take a definition back or assign to an object. *)
Definition is_assign (s : stmt) : bool :=
  match s with SAssign _ _ => true | _ => false end.

Definition mutates (i : item) : bool :=
  match i with
  | Undef _ => true
  | FunDef _ _ _ _ body => existsb is_assign body
  | _ => false
  end.

Definition has_body (i : item) : bool :=
  match i with FunDef _ _ _ _ _ => true | _ => false end.

(** What a line contributes to the program. *)
Inductive kind : Type :=
  | KDirective
  | KMacro
  | KConstant
  | KPrototype
  | KFunction.

Definition kind_of (i : item) : kind :=
  match i with
  | Include _ _ | PragmaOnce | IfDef _ | IfNDef _ | EndIf | Undef _
  | LinkageOpen _ | LinkageClose => KDirective
  | Define _ _ => KMacro
  | Constexpr _ _ _ => KConstant
  | Proto _ _ _ _ => KPrototype
  | FunDef _ _ _ _ _ => KFunction
  end.

(** Names of the functions a header declares without a body. *)
Fixpoint prototypes (h : list item) : list string :=
  match h with
  | [] => []
  | Proto _ _ f _ :: h' => f :: prototypes h'
  | _ :: h' => prototypes h'
  end.

End Preproc.

(** ** The four headers *)

(** [Projects/Arm_Rev_B/main/constants.h] *)
Module ArmRevB.
Import Cpp Preproc.

Definition constants_h : list item :=
  [ PragmaOnce;
    Define "EEPROM_SIZE" "0x64";
    Define "BEGINING_ADDR" "0x00";
    Define "BNO055_CHIP_ID" "0x00";
    Define "BNO055_ACC_ID" "0x01";
    Define "BNO055_PAGE_ID" "0x07";
    Define "BNO055_ADDR0" "0x28";
    Define "BNO055_ADDR1" "0x29";
    Define "BNO055_OPR_MODE" "0x3D";
    Define "BNO055_PWR_MODE" "0x3E";
    Define "BNO055_SYS_TRIGGER" "0x3F";
    Define "act_PHASE" "5";
    Define "act_ENABLE" "17";
    Constexpr TInt "kRotundaPin" (EIntLit "19");
    Constexpr TInt "kRotundaPosMin" (EIntLit "0");
    Constexpr TInt "kRotundaPosmax" (EIntLit "3600");
    Constexpr TDouble "kRotundaStartPos" (EIntLit "1800");
    Constexpr TDouble "kRotundaStartDuty" (EFloatLit "50.0");
    Constexpr TDouble "kRotundaFreq" (EIntLit "50");
    Constexpr TDouble "kRotundaPWMMin" (EFloatLit "2.5");
    Constexpr TDouble "kRotundaPWMMax" (EFloatLit "12.5");
    Constexpr TInt "kElbowPin" (EIntLit "27");
    Constexpr TInt "kElbowLimitMin" (EIntLit "100");
    Constexpr TInt "kElbowLimitMax" (EIntLit "290");
    Constexpr TDouble "kElbowRange" (EIntLit "300");
    Constexpr TDouble "kElbowStartPos" (EIntLit "150");
    Constexpr TDouble "kElbowFreq" (EIntLit "50");
    Constexpr TDouble "kElbowPWMMin" (EFloatLit "2.5");
    Constexpr TDouble "kElbowPWMMax" (EFloatLit "12.5");
    Constexpr TUInt32 "kMotorFreq" (EIntLit "5000");
    Constexpr TUInt32 "kShoulderSigPin" (EIntLit "25");
    Constexpr TUInt32 "kShoulderDirPin" (EIntLit "26");
    Constexpr TDouble "kShoulderLimitMin" (EIntLit "5");
    Constexpr TDouble "kShoulderLimitMax" (EIntLit "70");
    Constexpr TUInt32 "kShoulderEnablePWMMin" (EIntLit "0");
    Constexpr TUInt32 "kShoulderEnablePWMMax" (EIntLit "100");
    Constexpr TUInt32 "kWristLeftSigPin" (EIntLit "0");
    Constexpr TUInt32 "kWristLeftDirPin" (EIntLit "2");
    Constexpr TUInt32 "kWristRightSigPin" (EIntLit "16");
    Constexpr TUInt32 "kWristRightDirPin" (EIntLit "4");
    Constexpr TDouble "kWristPitchLimitMin" (ENeg (EIntLit "90"));
    Constexpr TDouble "kWristPitchLimitMax" (EIntLit "90");
    Constexpr TUInt32 "kWristEnablePWMMin" (EIntLit "0");
    Constexpr TUInt32 "kWristEnablePWMMax" (EIntLit "100");
    Define "IMU_ADDRESS_SHOULDER" "0x29";
    Define "BEGINING_ADDR" "0x00";
    Define "BNO055_CHIP_ID" "0x00";
    Define "BNO055_ACC_ID" "0x01";
    Define "BNO055_PAGE_ID" "0x07";
    Define "BNO055_ACC_DATA_X_LSB" "0x08";
    Define "BNO055_ACC_DATA_X_MSB" "0x09";
    Define "BNO055_EUL_YAW_LSB" "0x1A";
    Define "BNO055_EUL_YAW_MSB" "0x1B";
    Define "BNO055_EUL_ROLL_LSB" "0x1C";
    Define "BNO055_EUL_ROLL_MSB" "0x1D";
    Define "BNO055_EUL_PITCH_LSB" "0x1E";
    Define "BNO055_EUL_PITCH_MSB" "0x1F";
    Define "BNO055_UNIT_SEL" "0x3B";
    Define "BNO055_OPR_MODE" "0x3D";
    Define "BNO055_PWR_MODE" "0x3E";
    Define "BNO055_SYS_TRIGGER" "0x3F";
    Define "MPU6050_ACCEL_XOUT_H" "0x3B";
    Define "MPU6050_ACCEL_XOUT_L" "0x3C";
    Define "MPU6050_ACCEL_YOUT_H" "0x3D";
    Define "MPU6050_ACCEL_YOUT_L" "0x3E";
    Define "MPU6050_ACCEL_ZOUT_H" "0x3F";
    Define "MPU6050_ACCEL_ZOUT_L" "0x40";
    Define "MPU6050_TEMP_OUT_H" "0x41";
    Define "MPU6050_TEMP_OUT_L" "0x42";
    Define "MPU6050_GYRO_XOUT_H" "0x43";
    Define "MPU6050_GYRO_XOUT_L" "0x44";
    Define "MPU6050_GYRO_YOUT_H" "0x45";
    Define "MPU6050_GYRO_YOUT_L" "0x46";
    Define "MPU6050_GYRO_ZOUT_H" "0x47";
    Define "MPU6050_GYRO_ZOUT_L" "0x48";
    Define "MPU6050_ADDR0" "0x68";
    Define "MPU6050_ADDR1" "0x69";
    Define "MPU6050_PWR_MGMT_1" "0x6B" ].

End ArmRevB.

(** [Projects/IMU_Control/main/constants.h] *)
Module IMUControl.
Import Cpp Preproc.

Definition constants_h : list item :=
  [ Define "EEPROM_SIZE" "0x64";
    Define "BEGINING_ADDR" "0x00";
    Define "BNO055_CHIP_ID" "0x00";
    Define "BNO055_ACC_ID" "0x01";
    Define "BNO055_PAGE_ID" "0x07";
    Define "BNO055_ACC_DATA_X_LSB" "0x08";
    Define "BNO055_ACC_DATA_X_MSB" "0x09";
    Define "BNO055_EUL_YAW_LSB" "0x1A";
    Define "BNO055_EUL_YAW_MSB" "0x1B";
    Define "BNO055_EUL_ROLL_LSB" "0x1C";
    Define "BNO055_EUL_ROLL_MSB" "0x1D";
    Define "BNO055_EUL_PITCH_LSB" "0x1E";
    Define "BNO055_EUL_PITCH_MSB" "0x1F";
    Define "BNO055_UNIT_SEL" "0x3B";
    Define "BNO055_OPR_MODE" "0x3D";
    Define "BNO055_PWR_MODE" "0x3E";
    Define "BNO055_SYS_TRIGGER" "0x3F";
    Define "IMU_ADDRESS_SHOULDER" "0x29";
    Define "MPU6050_ACCEL_XOUT_H" "0x3B";
    Define "MPU6050_ACCEL_XOUT_L" "0x3C";
    Define "MPU6050_ACCEL_YOUT_H" "0x3D";
    Define "MPU6050_ACCEL_YOUT_L" "0x3E";
    Define "MPU6050_ACCEL_ZOUT_H" "0x3F";
    Define "MPU6050_ACCEL_ZOUT_L" "0x40";
    Define "MPU6050_TEMP_OUT_H" "0x41";
    Define "MPU6050_TEMP_OUT_L" "0x42";
    Define "MPU6050_GYRO_XOUT_H" "0x43";
    Define "MPU6050_GYRO_XOUT_L" "0x44";
    Define "MPU6050_GYRO_YOUT_H" "0x45";
    Define "MPU6050_GYRO_YOUT_L" "0x46";
    Define "MPU6050_GYRO_ZOUT_H" "0x47";
    Define "MPU6050_GYRO_ZOUT_L" "0x48";
    Define "MPU6050_ADDR0" "0x68";
    Define "MPU6050_ADDR1" "0x69";
    Define "MPU6050_PWR_MGMT_1" "0x6B" ].

End IMUControl.

(** [Projects/FPI_Control/main/RTOStasks.h] *)
Module FPIControl.
Import Cpp Preproc.

Definition RTOStasks_h : list item :=
  [ Include true "stdlib.h";
    Include false "freertos/FreeRTOS.h";
    Include false "freertos/portmacro.h";
    Include false "freertos/event_groups.h";
    IfNDef "RTOS_TASKS_H_";
    Define "RTOS_TASKS_H_" EmptyString;
    IfDef "_cplusplus";
    LinkageOpen LinkC;
    EndIf;
    Proto (Some LinkC) TVoid "vFPITask" [(TPtr TVoid, "pvParameters")];
    IfDef "_cplusplus";
    LinkageClose;
    EndIf;
    EndIf ].

End FPIControl.

(** [Projects/MC_Command_Servo/main/RTOStasks.h] *)
Module MCCommandServo.
Import Cpp Preproc.

Definition RTOStasks_h : list item :=
  [ Include true "stdlib.h";
    Include false "freertos/FreeRTOS.h";
    Include false "freertos/portmacro.h";
    Include false "freertos/event_groups.h";
    IfNDef "RTOS_TASKS_H_";
    Define "RTOS_TASKS_H_" EmptyString;
    IfDef "_cplusplus";
    LinkageOpen LinkC;
    EndIf;
    Proto (Some LinkC) TVoid "vCountTask" [(TPtr TVoid, "pvParameters")];
    Proto (Some LinkC) TVoid "vRotundaTask" [(TPtr TVoid, "pvParameters")];
    Proto (Some LinkC) TVoid "vElbowTask" [(TPtr TVoid, "pvParameters")];
    Proto (Some LinkC) TVoid "vShoulderTask" [(TPtr TVoid, "pvParameters")];
    Proto (Some LinkC) TVoid "vDiffGearboxTask" [(TPtr TVoid, "pvParameters")];
    Proto (Some LinkC) TVoid "vClawTask" [(TPtr TVoid, "pvPArameters")];
    IfDef "_cplusplus";
    LinkageClose;
    EndIf;
    EndIf ].

End MCCommandServo.

(** The headers of the repository. *)
Definition constants_headers : list (list Preproc.item) :=
  [ ArmRevB.constants_h; IMUControl.constants_h ].

Definition task_headers : list (list Preproc.item) :=
  [ FPIControl.RTOStasks_h; MCCommandServo.RTOStasks_h ].

Definition headers : list (list Preproc.item) :=
  constants_headers ++ task_headers.

(** ** Reading the tables *)

Module Table.
Import Cpp Preproc.

(** The macros named in [tbl] have the values given there. *)
Definition macros_are (h : list item) (tbl : list (string * Z)) : Prop :=
  Forall (λ e, macro h e.1 = Some e.2) tbl.

(** The macros [names] hold the addresses [a], [a + 1], [a + 2], ... *)
Fixpoint consecutive_from (h : list item) (a : Z) (names : list string) : Prop :=
  match names with
  | [] => True
  | m :: names' => macro h m = Some a ∧ consecutive_from h (a + 1) names'
  end.

(** [x < y], [x <= y] and [0 < x] on constants of a header, as the
    operators of the language compute them. *)
Definition clt (h : list item) (x y : string) : option bool :=
  match constant h x, constant h y with
  | Some a, Some b => lt a b
  | _, _ => None
  end.

Definition cle (h : list item) (x y : string) : option bool :=
  match constant h x, constant h y with
  | Some a, Some b => le a b
  | _, _ => None
  end.

Definition cpos (h : list item) (x : string) : option bool :=
  match constant h x with
  | Some a => lt (VInt 0) a
  | None => None
  end.

(** The mathematical value of a constant. *)
Definition cexact (h : list item) (x : string) : option Q :=
  match constant h x with
  | Some a => exact a
  | None => None
  end.

(** Half the sum of two constants, in lowest terms. *)
Definition cmid (h : list item) (x y : string) : option Q :=
  match cexact h x, cexact h y with
  | Some a, Some b => Some (Qred ((a + b) / (2 # 1)))%Q
  | _, _ => None
  end.

(** [lo < hi] holds, and the two constants stand for [qlo] and [qhi]. *)
Definition bounds (h : list item) (lo hi : string) (qlo qhi : Q) : Prop :=
  clt h lo hi = Some true ∧ cexact h lo = Some qlo ∧ cexact h hi = Some qhi.

(** [lo <= x <= hi] holds, and the three constants stand for the given
    numbers. *)
Definition within (h : list item) (lo x hi : string) (qlo qx qhi : Q) : Prop :=
  cle h lo x = Some true ∧ cle h x hi = Some true ∧
  cexact h lo = Some qlo ∧ cexact h x = Some qx ∧ cexact h hi = Some qhi.

Definition ends_with (suffix s : string) : bool :=
  let n := String.length s in
  let k := String.length suffix in
  (k <=? n)%nat && String.eqb (substring (n - k) k s) suffix.

(** The constants of a header whose name ends in [suffix], in source order,
    with their values. *)
Definition constants_ending (suffix : string) (h : list item)
  : option (list (string * value)) :=
  match translate ∅ h with
  | Some st =>
      Some (omap (λ d, match d with
                       | DConst _ x v =>
                           if ends_with suffix x then Some (x, v) else None
                       | _ => None
                       end) (decls st))
  | None => None
  end.

Definition pins (h : list item) : option (list (string * value)) :=
  constants_ending "Pin" h.

Definition names_ending (suffix : string) (h : list item) : option (list string) :=
  match constants_ending suffix h with
  | Some l => Some (map fst l)
  | None => None
  end.

(** A header with nothing but directives, macros, constants and
    prototypes. *)
Definition only_tables (h : list item) : bool :=
  forallb (λ i, match kind_of i with
                | KDirective | KMacro | KConstant | KPrototype => true
                | KFunction => false
                end) h.

(** Every body the first header writes for a macro and every body the
    second writes for the same macro are integer literals of one value. *)
Definition same_value (b1 b2 : string) : bool :=
  match Lit.parse_int_literal b1, Lit.parse_int_literal b2 with
  | Some v1, Some v2 => v1 =? v2
  | _, _ => false
  end.

Definition agrees_with (m b1 : string) (i : item) : bool :=
  match i with
  | Define m' b2 => if String.eqb m m' then same_value b1 b2 else true
  | _ => true
  end.

Definition agree (h1 h2 : list item) : bool :=
  forallb (λ i1, match i1 with
                 | Define m b1 => forallb (agrees_with m b1) h2
                 | _ => true
                 end) h1.

(** The macros two headers both define, in the order of the first. *)
Definition shared_names (h1 h2 : list item) : list string :=
  remove_dups (filter (λ m, m ∈ macro_names h2) (macro_names h1)).

End Table.

(** ** Shape of the headers *)

Module Layout.
Import Cpp Preproc.

(** A line outside every conditional group that takes nothing back. *)
Definition flat (i : item) : bool :=
  match i with
  | IfDef _ | IfNDef _ | EndIf | Undef _ => false
  | FunDef _ _ _ _ body => negb (existsb is_assign body)
  | _ => true
  end.

Definition is_define (i : item) : bool :=
  match i with Define _ _ => true | _ => false end.

(** Every line of [h2] is a [#define] that [h1] writes with the same body. *)
Definition covered_by (h1 h2 : list item) : bool :=
  forallb (λ i, match i with
                | Define m b => existsb (String.eqb b) (bodies_of h1 m)
                | _ => false
                end) h2.

(** The macros of a header whose name starts with [p], with their values,
    in source order and once each. *)
Definition registers (p : string) (h : list item) : list (string * Z) :=
  omap (λ m, if String.prefix p m
             then match macro h m with Some v => Some (m, v) | None => None end
             else None)
    (remove_dups (macro_names h)).

(** The number a pin constant stands for. *)
Definition pin_number (v : value) : option Z :=
  match v with
  | VInt z | VUInt32 z => Some z
  | VDouble _ => None
  end.

(** The GPIO lines a header names: its pin constants and the actuator
    phase and enable macros. *)
Definition pin_table (h : list item) : option (list (string * Z)) :=
  match Table.pins h, macro h "act_PHASE", macro h "act_ENABLE" with
  | Some l, Some p, Some e =>
      match mapM (λ xv, match pin_number xv.2 with
                        | Some z => Some (xv.1, z)
                        | None => None
                        end) l with
      | Some l' => Some (l' ++ [("act_PHASE"%string, p); ("act_ENABLE"%string, e)])
      | None => None
      end
  | _, _, _ => None
  end.

(** Replacement list of macro [m] after the whole header, translated where
    the macros [predef] are already defined. *)
Definition macro_text (predef : gmap string string) (h : list item) (m : string)
  : option string :=
  match translate predef h with
  | Some st => macros st !! m
  | None => None
  end.

(** A macro body that is an integer literal of one byte. *)
Definition byte_literal (b : string) : bool :=
  match Lit.parse_int_literal b with
  | Some v => (0 <=? v) && (v <=? 255)
  | None => false
  end.

(** The number an initialiser denotes before any conversion. *)
Fixpoint literal_Q (e : expr) : option Q :=
  match e with
  | EIntLit s =>
      match Lit.parse_int_literal s with
      | Some z => Some (inject_Z z)
      | None => None
      end
  | EFloatLit s =>
      match Lit.parse_decimal s with
      | Some (m, k) => Some (inject_Z m / inject_Z (10 ^ k))%Q
      | None => None
      end
  | ENeg e' =>
      match literal_Q e' with
      | Some q => Some (- q)%Q
      | None => None
      end
  end.

(** The constant declared by a line stands for the number its initialiser
    denotes. *)
Definition exact_line (h : list item) (i : item) : bool :=
  match i with
  | Constexpr t x e =>
      match constant h x, literal_Q e with
      | Some v, Some q =>
          match exact v with
          | Some q' => Qeq_bool q' q
          | None => false
          end
      | _, _ => false
      end
  | _ => true
  end.

End Layout.

(** ** General facts about the translation *)

Section Translation.
Import Cpp Preproc.

Lemma run_app (st : state) (xs ys : list item) :
  run st (xs ++ ys) =
  match run st xs with Some st' => run st' ys | None => None end.
Proof.
  revert st. induction xs as [|i xs IH]; intros st; simpl; [done|].
  destruct (step st i); [apply IH | done].
Qed.

Lemma constant_of_app (ds ds' : list decl) (x : string) (v : value) :
  constant_of ds x = Some v → constant_of (ds ++ ds') x = Some v.
Proof.
  induction ds as [|d ds IH]; simpl; [done|].
  destruct d; try apply IH.
  destruct (String.eqb x x0); [done | apply IH].
Qed.

(** A line that is not [#undef] keeps every macro it finds, with the same
    replacement list. *)
Lemma step_macros (st st' : state) (i : item) :
  mutates i = false → step st i = Some st' → macros st ⊆ macros st'.
Proof.
  intros Hm Hs. destruct i; simpl in *; simplify_eq; try done;
    repeat case_match; simplify_eq; simpl; try done.
  by apply insert_subseteq.
Qed.

(** No line takes a declared constant away or changes its value. *)
Lemma step_constants (st st' : state) (i : item) (x : string) (v : value) :
  step st i = Some st' →
  constant_of (decls st) x = Some v → constant_of (decls st') x = Some v.
Proof.
  intros Hs Hc. destruct i; simpl in *; simplify_eq; try done;
    repeat case_match; simplify_eq; simpl; try done;
    by apply constant_of_app.
Qed.

Lemma run_macros (items : list item) (st st' : state) :
  Forall (λ i, mutates i = false) items →
  run st items = Some st' → macros st ⊆ macros st'.
Proof.
  intros Hall. revert st. induction Hall as [|i items Hi _ IH]; intros st; simpl.
  - by intros [= ->].
  - destruct (step st i) as [st1|] eqn:Hs; [|done].
    intros Hr. etrans; [by eapply step_macros | by apply IH].
Qed.

Lemma run_constants (items : list item) (st st' : state) (x : string) (v : value) :
  run st items = Some st' →
  constant_of (decls st) x = Some v → constant_of (decls st') x = Some v.
Proof.
  revert st. induction items as [|i items IH]; intros st; simpl.
  - by intros [= ->].
  - destruct (step st i) as [st1|] eqn:Hs; [|done].
    intros Hr Hc. apply (IH st1); [done|]. by eapply step_constants.
Qed.

(** The state at a later line is reached from the state at an earlier one
    by the lines in between. *)
Lemma state_at_split (predef : gmap string string) (h : list item) (n k : nat)
    (st2 : state) :
  (n ≤ k)%nat → state_at predef h k = Some st2 →
  ∃ st1, state_at predef h n = Some st1 ∧ run st1 (drop n (take k h)) = Some st2.
Proof.
  unfold state_at. intros Hnk Hk.
  rewrite <- (take_drop n (take k h)), run_app in Hk.
  rewrite take_take, Nat.min_l in Hk by done.
  destruct (run (init predef) (take n h)) as [st1|]; [|done].
  by exists st1.
Qed.

Lemma Forall_drop_take {A} (P : A → Prop) (l : list A) (n k : nat) :
  Forall P l → Forall P (drop n (take k l)).
Proof. intros H. by apply Forall_drop, Forall_take. Qed.

Lemma bodies_of_In (h : list item) (m b : string) :
  b ∈ bodies_of h m → In (Define m b) h.
Proof.
  induction h as [|i h IH]; simpl; [by intros ?%elem_of_nil|].
  destruct i; try (right; by apply IH).
  destruct (String.eqb_spec m m0) as [->|Hne].
  - intros [->|Hb]%elem_of_cons; [by left | right; by apply IH].
  - right; by apply IH.
Qed.

(** The agreement check is sound. *)
Lemma agree_sound (h1 h2 : list item) (m b1 b2 : string) :
  Table.agree h1 h2 = true →
  b1 ∈ bodies_of h1 m → b2 ∈ bodies_of h2 m →
  ∃ v, Lit.parse_int_literal b1 = Some v ∧ Lit.parse_int_literal b2 = Some v.
Proof.
  unfold Table.agree. rewrite forallb_forall.
  intros Hag H1%bodies_of_In H2%bodies_of_In.
  specialize (Hag _ H1). simpl in Hag.
  rewrite forallb_forall in Hag. specialize (Hag _ H2). simpl in Hag.
  rewrite String.eqb_refl in Hag. unfold Table.same_value in Hag.
  destruct (Lit.parse_int_literal b1) as [v1|]; [|done].
  destruct (Lit.parse_int_literal b2) as [v2|]; [|done].
  apply Z.eqb_eq in Hag as ->. by exists v2.
Qed.

(** A macro found after a line was there before it or is defined by it. *)
Lemma step_origin (st st' : state) (i : item) (m b : string) :
  step st i = Some st' → macros st' !! m = Some b →
  macros st !! m = Some b ∨ i = Define m b.
Proof.
  intros Hs Hl. destruct i; simpl in *; simplify_eq; auto;
    repeat case_match; simplify_eq; simpl in *; auto.
  - apply lookup_insert_Some in Hl as [[-> ->]|[_ Hl]]; auto.
  - apply lookup_delete_Some in Hl as [_ Hl]; auto.
Qed.

Lemma run_origin (items : list item) (st st' : state) (m b : string) :
  run st items = Some st' → macros st' !! m = Some b →
  macros st !! m = Some b ∨ b ∈ bodies_of items m.
Proof.
  revert st. induction items as [|i items IH]; intros st; simpl.
  - intros [= ->]; auto.
  - destruct (step st i) as [st1|] eqn:Hs; [|done].
    intros Hr Hl. destruct (IH _ Hr Hl) as [H1|Hb].
    + destruct (step_origin _ _ _ _ _ Hs H1) as [H0| ->]; [by left|].
      right. rewrite String.eqb_refl. apply list_elem_of_here.
    + right. destruct i; try done.
      destruct (String.eqb m m0); [by apply list_elem_of_further | done].
Qed.

(** The value of a macro of a header comes from a line of the header. *)
Lemma macro_body (h : list item) (m : string) (v : Z) :
  macro h m = Some v →
  ∃ b, b ∈ bodies_of h m ∧ Lit.parse_int_literal b = Some v.
Proof.
  unfold macro, translate. intros Hm.
  destruct (run (init ∅) h) as [st|] eqn:Hr; [|done].
  destruct (conds st), (links st); try done.
  destruct (macros st !! m) as [b|] eqn:Hl; [|done].
  destruct (run_origin _ _ _ _ _ Hr Hl) as [H0|Hb]; [|by exists b].
  simpl in H0. by rewrite lookup_empty in H0.
Qed.

End Translation.

(** ** The constant tables *)

Section Constants.
Import Cpp Preproc Table.

(** Splits a table into its entries and evaluates each of them. *)
Ltac entries :=
  repeat match goal with
         | |- _ ∧ _ => split
         | |- True => exact I
         | |- Forall _ [] => apply List.Forall_nil
         | |- Forall _ (_ :: _) => apply List.Forall_cons; cbv beta
         | |- Forall _ constants_headers => unfold constants_headers
         | |- macros_are _ _ => unfold macros_are
         | |- consecutive_from _ _ _ => cbn [consecutive_from]
         | |- bounds _ _ _ _ _ => unfold bounds
         | |- within _ _ _ _ _ _ _ => unfold within
         end.

Ltac table := entries; vm_compute; first [ reflexivity | congruence ].

(** C1.  The constants headers give each IMU chip two bus addresses:
    [BNO055_ADDR0 = 0x28] and [BNO055_ADDR1 = 0x29] in the Arm_Rev_B header
    (the IMU_Control header does not define these two), and
    [MPU6050_ADDR0 = 0x68] and [MPU6050_ADDR1 = 0x69] in both headers.  The
    two addresses of a chip are consecutive, hence distinct. *)
Theorem imu_bus_addresses :
  macros_are ArmRevB.constants_h
    [("BNO055_ADDR0", 0x28); ("BNO055_ADDR1", 0x29);
     ("MPU6050_ADDR0", 0x68); ("MPU6050_ADDR1", 0x69)] ∧
  macros_are IMUControl.constants_h
    [("MPU6050_ADDR0", 0x68); ("MPU6050_ADDR1", 0x69)] ∧
  macro IMUControl.constants_h "BNO055_ADDR0" = None ∧
  macro IMUControl.constants_h "BNO055_ADDR1" = None ∧
  consecutive_from ArmRevB.constants_h 0x28 ["BNO055_ADDR0"; "BNO055_ADDR1"] ∧
  Forall (λ h, consecutive_from h 0x68 ["MPU6050_ADDR0"; "MPU6050_ADDR1"])
    constants_headers ∧
  macro ArmRevB.constants_h "BNO055_ADDR0" ≠ macro ArmRevB.constants_h "BNO055_ADDR1" ∧
  Forall (λ h, macro h "MPU6050_ADDR0" ≠ macro h "MPU6050_ADDR1") constants_headers.
Proof. table. Qed.

(** C3.  In every constants header [EEPROM_SIZE] is 100 and
    [BEGINING_ADDR] is 0.  The lines that define them write [0x64] and
    [0x00]: one line each, but for [BEGINING_ADDR] in the Arm_Rev_B header,
    which has two lines with the same body. *)
Theorem eeprom_size_and_base :
  Forall (λ h, macro h "EEPROM_SIZE" = Some 100 ∧ macro h "BEGINING_ADDR" = Some 0)
    constants_headers ∧
  bodies_of ArmRevB.constants_h "EEPROM_SIZE" = ["0x64"] ∧
  bodies_of ArmRevB.constants_h "BEGINING_ADDR" = ["0x00"; "0x00"] ∧
  bodies_of IMUControl.constants_h "EEPROM_SIZE" = ["0x64"] ∧
  bodies_of IMUControl.constants_h "BEGINING_ADDR" = ["0x00"] ∧
  Lit.parse_int_literal "0x64" = Some 100 ∧
  Lit.parse_int_literal "0x00" = Some 0.
Proof. table. Qed.

(** C4.  The register map, the same in both constants headers.  BNO055:
    chip id [0x00], accelerometer id [0x01], page id [0x07], the Euler-angle
    registers at the consecutive addresses [0x1A] to [0x1F] in the order yaw,
    roll, pitch with each MSB register right after its LSB register, unit
    selection [0x3B], operation mode [0x3D], power mode [0x3E], system
    trigger [0x3F].  MPU6050: the data registers at the consecutive addresses
    [0x3B] to [0x48] in the order accelerometer X, Y, Z, temperature, gyro
    X, Y, Z with each low-byte register right after its high-byte register,
    and [MPU6050_PWR_MGMT_1 = 0x6B]. *)
Theorem register_map :
  Forall (λ h,
    macros_are h
      [("BNO055_CHIP_ID", 0x00); ("BNO055_ACC_ID", 0x01); ("BNO055_PAGE_ID", 0x07);
       ("BNO055_EUL_YAW_LSB", 0x1A); ("BNO055_EUL_PITCH_MSB", 0x1F);
       ("BNO055_UNIT_SEL", 0x3B); ("BNO055_OPR_MODE", 0x3D);
       ("BNO055_PWR_MODE", 0x3E); ("BNO055_SYS_TRIGGER", 0x3F);
       ("MPU6050_ACCEL_XOUT_H", 0x3B); ("MPU6050_GYRO_ZOUT_L", 0x48);
       ("MPU6050_PWR_MGMT_1", 0x6B)] ∧
    consecutive_from h 0x1A
      ["BNO055_EUL_YAW_LSB"; "BNO055_EUL_YAW_MSB";
       "BNO055_EUL_ROLL_LSB"; "BNO055_EUL_ROLL_MSB";
       "BNO055_EUL_PITCH_LSB"; "BNO055_EUL_PITCH_MSB"] ∧
    consecutive_from h 0x3B
      ["MPU6050_ACCEL_XOUT_H"; "MPU6050_ACCEL_XOUT_L";
       "MPU6050_ACCEL_YOUT_H"; "MPU6050_ACCEL_YOUT_L";
       "MPU6050_ACCEL_ZOUT_H"; "MPU6050_ACCEL_ZOUT_L";
       "MPU6050_TEMP_OUT_H"; "MPU6050_TEMP_OUT_L";
       "MPU6050_GYRO_XOUT_H"; "MPU6050_GYRO_XOUT_L";
       "MPU6050_GYRO_YOUT_H"; "MPU6050_GYRO_YOUT_L";
       "MPU6050_GYRO_ZOUT_H"; "MPU6050_GYRO_ZOUT_L"])
    constants_headers.
Proof. table. Qed.

(** C6.  Pins of the Arm_Rev_B header: rotunda 19, elbow 27, shoulder
    signal 25 and direction 26, left wrist signal 0 and direction 2, right
    wrist signal 16 and direction 4; these are all the constants named as
    pins.  The actuator pair is [act_PHASE = 5] and [act_ENABLE = 17]. *)
Theorem gpio_pins :
  pins ArmRevB.constants_h =
    Some [("kRotundaPin", VInt 19); ("kElbowPin", VInt 27);
          ("kShoulderSigPin", VUInt32 25); ("kShoulderDirPin", VUInt32 26);
          ("kWristLeftSigPin", VUInt32 0); ("kWristLeftDirPin", VUInt32 2);
          ("kWristRightSigPin", VUInt32 16); ("kWristRightDirPin", VUInt32 4)] ∧
  constant ArmRevB.constants_h "kRotundaPin" = Some (VInt 19) ∧
  constant ArmRevB.constants_h "kElbowPin" = Some (VInt 27) ∧
  constant ArmRevB.constants_h "kShoulderSigPin" = Some (VUInt32 25) ∧
  constant ArmRevB.constants_h "kShoulderDirPin" = Some (VUInt32 26) ∧
  constant ArmRevB.constants_h "kWristLeftSigPin" = Some (VUInt32 0) ∧
  constant ArmRevB.constants_h "kWristLeftDirPin" = Some (VUInt32 2) ∧
  constant ArmRevB.constants_h "kWristRightSigPin" = Some (VUInt32 16) ∧
  constant ArmRevB.constants_h "kWristRightDirPin" = Some (VUInt32 4) ∧
  macros_are ArmRevB.constants_h [("act_PHASE", 5); ("act_ENABLE", 17)].
Proof. table. Qed.

(** C10.  [IMU_ADDRESS_SHOULDER] is [0x29] in both constants headers.  In
    the Arm_Rev_B header it equals [BNO055_ADDR1] and differs from
    [BNO055_ADDR0 = 0x28]; in both headers it differs from the two MPU6050
    addresses [0x68] and [0x69]. *)
Theorem shoulder_imu_address :
  Forall (λ h, macro h "IMU_ADDRESS_SHOULDER" = Some 0x29 ∧
               macro h "MPU6050_ADDR0" = Some 0x68 ∧
               macro h "MPU6050_ADDR1" = Some 0x69 ∧
               macro h "IMU_ADDRESS_SHOULDER" ≠ macro h "MPU6050_ADDR0" ∧
               macro h "IMU_ADDRESS_SHOULDER" ≠ macro h "MPU6050_ADDR1")
    constants_headers ∧
  macro ArmRevB.constants_h "BNO055_ADDR1" = Some 0x29 ∧
  macro ArmRevB.constants_h "BNO055_ADDR0" = Some 0x28 ∧
  macro ArmRevB.constants_h "IMU_ADDRESS_SHOULDER" = macro ArmRevB.constants_h "BNO055_ADDR1" ∧
  macro ArmRevB.constants_h "IMU_ADDRESS_SHOULDER" ≠ macro ArmRevB.constants_h "BNO055_ADDR0".
Proof. table. Qed.

(** C5.  The joints with PWM bounds are rotunda, elbow, shoulder and wrist.
    For each the duty-cycle minimum is below the maximum and the position
    limit minimum is below the maximum, as [<] computes them on the
    declared types: rotunda [2.5 < 12.5] and [0 < 3600], elbow [2.5 < 12.5]
    and [100 < 290] with [290 <= 300], its range, shoulder [0 < 100] and
    [5 < 70], wrist [0 < 100] and [-90 < 90].  The frequency constants are
    [kRotundaFreq = 50], [kElbowFreq = 50] and [kMotorFreq = 5000], all
    positive.  The [double] constants stand for exactly these numbers. *)
Theorem pwm_bounds_ordered :
  names_ending "PWMMin" ArmRevB.constants_h =
    Some ["kRotundaPWMMin"; "kElbowPWMMin";
          "kShoulderEnablePWMMin"; "kWristEnablePWMMin"] ∧
  bounds ArmRevB.constants_h "kRotundaPWMMin" "kRotundaPWMMax" (5 # 2) (25 # 2) ∧
  bounds ArmRevB.constants_h "kRotundaPosMin" "kRotundaPosmax" (0 # 1) (3600 # 1) ∧
  bounds ArmRevB.constants_h "kElbowPWMMin" "kElbowPWMMax" (5 # 2) (25 # 2) ∧
  bounds ArmRevB.constants_h "kElbowLimitMin" "kElbowLimitMax" (100 # 1) (290 # 1) ∧
  cle ArmRevB.constants_h "kElbowLimitMax" "kElbowRange" = Some true ∧
  cexact ArmRevB.constants_h "kElbowRange" = Some (300 # 1)%Q ∧
  bounds ArmRevB.constants_h "kShoulderEnablePWMMin" "kShoulderEnablePWMMax"
    (0 # 1) (100 # 1) ∧
  bounds ArmRevB.constants_h "kShoulderLimitMin" "kShoulderLimitMax" (5 # 1) (70 # 1) ∧
  bounds ArmRevB.constants_h "kWristEnablePWMMin" "kWristEnablePWMMax"
    (0 # 1) (100 # 1) ∧
  bounds ArmRevB.constants_h "kWristPitchLimitMin" "kWristPitchLimitMax"
    (-90 # 1) (90 # 1) ∧
  names_ending "Freq" ArmRevB.constants_h =
    Some ["kRotundaFreq"; "kElbowFreq"; "kMotorFreq"] ∧
  cpos ArmRevB.constants_h "kRotundaFreq" = Some true ∧
  cexact ArmRevB.constants_h "kRotundaFreq" = Some (50 # 1)%Q ∧
  cpos ArmRevB.constants_h "kElbowFreq" = Some true ∧
  cexact ArmRevB.constants_h "kElbowFreq" = Some (50 # 1)%Q ∧
  cpos ArmRevB.constants_h "kMotorFreq" = Some true ∧
  cexact ArmRevB.constants_h "kMotorFreq" = Some (5000 # 1)%Q.
Proof. table. Qed.

(** C9.  The start positions are [kRotundaStartPos] and [kElbowStartPos].
    [kRotundaStartPos = 1800] lies in [[kRotundaPosMin, kRotundaPosmax]] =
    [[0, 3600]] and is its midpoint; [kElbowStartPos = 150] lies in
    [[kElbowLimitMin, kElbowLimitMax]] = [[100, 290]]. *)
Theorem start_positions_within_limits :
  names_ending "StartPos" ArmRevB.constants_h =
    Some ["kRotundaStartPos"; "kElbowStartPos"] ∧
  within ArmRevB.constants_h "kRotundaPosMin" "kRotundaStartPos" "kRotundaPosmax"
    (0 # 1) (1800 # 1) (3600 # 1) ∧
  cmid ArmRevB.constants_h "kRotundaPosMin" "kRotundaPosmax" =
    cexact ArmRevB.constants_h "kRotundaStartPos" ∧
  within ArmRevB.constants_h "kElbowLimitMin" "kElbowStartPos" "kElbowLimitMax"
    (100 # 1) (150 # 1) (290 # 1).
Proof. table. Qed.

End Constants.

(** ** The two constants headers agree *)

Section Agreement.
Import Cpp Preproc Table.

(** C8.  A macro that the Arm_Rev_B header and the IMU_Control header both
    define has the same value in both, and every line of either header that
    defines it writes that value. *)
Theorem shared_macros_agree (m : string) (v1 v2 : Z) :
  macro ArmRevB.constants_h m = Some v1 →
  macro IMUControl.constants_h m = Some v2 →
  v1 = v2 ∧
  Forall (λ b, Lit.parse_int_literal b = Some v1) (bodies_of ArmRevB.constants_h m) ∧
  Forall (λ b, Lit.parse_int_literal b = Some v1) (bodies_of IMUControl.constants_h m).
Proof.
  intros (b1 & Hb1 & Hv1)%macro_body (b2 & Hb2 & Hv2)%macro_body.
  assert (Hag : agree ArmRevB.constants_h IMUControl.constants_h = true)
    by (vm_compute; reflexivity).
  assert (v1 = v2) as <-.
  { destruct (agree_sound _ _ _ _ _ Hag Hb1 Hb2) as (v & Hv1' & Hv2'). congruence. }
  split; [done|]. split; apply Forall_forall; intros b Hb.
  - destruct (agree_sound _ _ _ _ _ Hag Hb Hb2) as (v & Hv1' & Hv2'). congruence.
  - destruct (agree_sound _ _ _ _ _ Hag Hb1 Hb) as (v & Hv1' & Hv2'). congruence.
Qed.

Lemma shared_macros_agree_witness :
  macro ArmRevB.constants_h "BEGINING_ADDR" = Some 0 ∧
  macro IMUControl.constants_h "BEGINING_ADDR" = Some 0 ∧
  (0 = 0 ∧
   Forall (λ b, Lit.parse_int_literal b = Some 0)
     (bodies_of ArmRevB.constants_h "BEGINING_ADDR") ∧
   Forall (λ b, Lit.parse_int_literal b = Some 0)
     (bodies_of IMUControl.constants_h "BEGINING_ADDR")).
Proof.
  split; [vm_compute; reflexivity|].
  split; [vm_compute; reflexivity|].
  apply (shared_macros_agree "BEGINING_ADDR" 0 0); vm_compute; reflexivity.
Defined.

(** [EEPROM_SIZE], [BEGINING_ADDR] and [IMU_ADDRESS_SHOULDER] are among the
    shared macros, and every macro of the IMU_Control header is one of the
    Arm_Rev_B header. *)
Lemma shared_names_cover :
  "EEPROM_SIZE" ∈ shared_names ArmRevB.constants_h IMUControl.constants_h ∧
  "BEGINING_ADDR" ∈ shared_names ArmRevB.constants_h IMUControl.constants_h ∧
  "IMU_ADDRESS_SHOULDER" ∈ shared_names ArmRevB.constants_h IMUControl.constants_h ∧
  macro_names IMUControl.constants_h ⊆ macro_names ArmRevB.constants_h.
Proof.
  split; [|split; [|split]]; apply (bool_decide_unpack _); vm_compute; reflexivity.
Qed.

End Agreement.

(** ** Nothing changes a constant *)

Section Immutability.
Import Cpp Preproc Table.

Lemma Forall_of_forallb {A} (f : A → bool) (l : list A) :
  forallb (λ x, negb (f x)) l = true → Forall (λ x, f x = false) l.
Proof.
  rewrite forallb_forall, Forall_forall. intros H x Hx%list_elem_of_In.
  apply negb_true_iff. by apply H.
Qed.

Lemma is_Some_eval {A} (o : option A) :
  (match o with Some _ => true | None => false end) = true → is_Some o.
Proof. destruct o; [by eexists | done]. Qed.

(** No header has [#undef] or an assignment. *)
Lemma headers_never_mutate :
  Forall (λ h, Forall (λ i, mutates i = false) h) headers.
Proof.
  unfold headers, constants_headers, task_headers. cbn [app].
  do 4 (apply List.Forall_cons;
          [apply Forall_of_forallb; vm_compute; reflexivity|]).
  apply List.Forall_nil.
Qed.

(** C7.  No line of a header takes a macro back or assigns to a constant,
    and a read is a function of the place it is made at.  Whatever the
    macros defined beforehand, a macro or [constexpr] constant read after
    line [n] of a header reads the same after any later line [k] that the
    translation reaches: the redefinitions in the Arm_Rev_B header repeat
    the body already there. *)
Theorem constants_immutable (h : list item) (predef : gmap string string)
    (n k : nat) :
  h ∈ headers → (n ≤ k)%nat → is_Some (state_at predef h k) →
  Forall (λ i, mutates i = false) h ∧
  (∀ m b, read_macro predef h n m = Some b → read_macro predef h k m = Some b) ∧
  (∀ x v, read_constant predef h n x = Some v →
          read_constant predef h k x = Some v).
Proof.
  intros Hh Hnk [st2 Hk].
  assert (Hpure : Forall (λ i, mutates i = false) h).
  { pose proof headers_never_mutate as Hall.
    rewrite Forall_forall in Hall. by apply Hall. }
  destruct (state_at_split _ _ _ _ _ Hnk Hk) as (st1 & Hn & Hrun).
  split; [done|]. unfold read_macro, read_constant. rewrite Hn, Hk. split.
  - intros m b Hm. eapply lookup_weaken; [done|].
    eapply run_macros; [|done]. by apply Forall_drop_take.
  - intros x v Hx. by eapply run_constants.
Qed.

Lemma constants_immutable_witness :
  ArmRevB.constants_h ∈ headers ∧ (4 ≤ 60)%nat ∧
  is_Some (state_at ∅ ArmRevB.constants_h 60) ∧
  (Forall (λ i, mutates i = false) ArmRevB.constants_h ∧
   (∀ m b, read_macro ∅ ArmRevB.constants_h 4 m = Some b →
           read_macro ∅ ArmRevB.constants_h 60 m = Some b) ∧
   (∀ x v, read_constant ∅ ArmRevB.constants_h 4 x = Some v →
           read_constant ∅ ArmRevB.constants_h 60 x = Some v)).
Proof.
  assert (H1 : ArmRevB.constants_h ∈ headers) by apply list_elem_of_here.
  assert (H2 : (4 ≤ 60)%nat) by lia.
  assert (H3 : is_Some (state_at ∅ ArmRevB.constants_h 60))
    by (apply is_Some_eval; vm_compute; reflexivity).
  exact (conj H1 (conj H2 (conj H3
           (constants_immutable ArmRevB.constants_h ∅ 4 60 H1 H2 H3)))).
Defined.

(** The redefinitions in the Arm_Rev_B header: [BNO055_CHIP_ID] is read as
    [0x00] after its first definition and after its second. *)
Example chip_id_read_twice :
  nth_error ArmRevB.constants_h 3 = Some (Define "BNO055_CHIP_ID" "0x00") ∧
  nth_error ArmRevB.constants_h 46 = Some (Define "BNO055_CHIP_ID" "0x00") ∧
  read_macro ∅ ArmRevB.constants_h 3 "BNO055_CHIP_ID" = None ∧
  read_macro ∅ ArmRevB.constants_h 4 "BNO055_CHIP_ID" = Some "0x00"%string ∧
  read_macro ∅ ArmRevB.constants_h 47 "BNO055_CHIP_ID" = Some "0x00"%string.
Proof. repeat split; vm_compute; reflexivity. Qed.

End Immutability.

(** ** The task entry points *)

Section Tasks.
Import Cpp Preproc Table.

Ltac lines Hg Hc :=
  repeat (progress (unfold defined, active;
    cbn [run step init macros conds links decls forallb id andb negb
         effective_linkage map fst app fmap option_fmap option_map];
    rewrite ?Hg, ?lookup_insert_eq, ?lookup_insert_ne, ?Hc by done)).

(** C2.  Where the include guard is not yet defined, and whatever else is
    (the misspelt [_cplusplus] included), each [RTOStasks.h] translates and
    declares its task entry points, and nothing else, as functions of C
    linkage from [void *] to [void].  The seven are the only prototypes of
    the repository; no header has a function body, and every line of every
    header is a directive, a macro, a [constexpr] constant or a
    prototype. *)
Theorem task_entry_points (predef : gmap string string) :
  predef !! "RTOS_TASKS_H_" = None →
  decls <$> translate predef FPIControl.RTOStasks_h =
    Some [DProto LinkC TVoid "vFPITask" [TPtr TVoid]] ∧
  decls <$> translate predef MCCommandServo.RTOStasks_h =
    Some [DProto LinkC TVoid "vCountTask" [TPtr TVoid];
          DProto LinkC TVoid "vRotundaTask" [TPtr TVoid];
          DProto LinkC TVoid "vElbowTask" [TPtr TVoid];
          DProto LinkC TVoid "vShoulderTask" [TPtr TVoid];
          DProto LinkC TVoid "vDiffGearboxTask" [TPtr TVoid];
          DProto LinkC TVoid "vClawTask" [TPtr TVoid]] ∧
  concat (map prototypes headers) =
    ["vFPITask"; "vCountTask"; "vRotundaTask"; "vElbowTask"; "vShoulderTask";
     "vDiffGearboxTask"; "vClawTask"] ∧
  Forall (λ h, existsb has_body h = false ∧ only_tables h = true) headers.
Proof.
  intros Hg. split; [|split; [|split]].
  - unfold translate, FPIControl.RTOStasks_h.
    destruct (predef !! "_cplusplus") as [c|] eqn:Hc; lines Hg Hc; reflexivity.
  - unfold translate, MCCommandServo.RTOStasks_h.
    destruct (predef !! "_cplusplus") as [c|] eqn:Hc; lines Hg Hc; reflexivity.
  - vm_compute. reflexivity.
  - unfold headers, constants_headers, task_headers. cbn [app].
    do 4 (apply List.Forall_cons; [split; vm_compute; reflexivity|]).
    apply List.Forall_nil.
Qed.

Lemma task_entry_points_witness :
  (∅ : gmap string string) !! "RTOS_TASKS_H_" = None ∧
  (decls <$> translate ∅ FPIControl.RTOStasks_h =
     Some [DProto LinkC TVoid "vFPITask" [TPtr TVoid]] ∧
   decls <$> translate ∅ MCCommandServo.RTOStasks_h =
     Some [DProto LinkC TVoid "vCountTask" [TPtr TVoid];
           DProto LinkC TVoid "vRotundaTask" [TPtr TVoid];
           DProto LinkC TVoid "vElbowTask" [TPtr TVoid];
           DProto LinkC TVoid "vShoulderTask" [TPtr TVoid];
           DProto LinkC TVoid "vDiffGearboxTask" [TPtr TVoid];
           DProto LinkC TVoid "vClawTask" [TPtr TVoid]] ∧
   concat (map prototypes headers) =
     ["vFPITask"; "vCountTask"; "vRotundaTask"; "vElbowTask"; "vShoulderTask";
      "vDiffGearboxTask"; "vClawTask"] ∧
   Forall (λ h, existsb has_body h = false ∧ only_tables h = true) headers).
Proof.
  assert (Hg : (∅ : gmap string string) !! "RTOS_TASKS_H_" = None)
    by reflexivity.
  exact (conj Hg (task_entry_points ∅ Hg)).
Defined.

(** A second inclusion in the same translation unit declares nothing. *)
Lemma second_inclusion_is_empty (predef : gmap string string) :
  is_Some (predef !! "RTOS_TASKS_H_") →
  decls <$> translate predef FPIControl.RTOStasks_h = Some [] ∧
  decls <$> translate predef MCCommandServo.RTOStasks_h = Some [].
Proof.
  intros [g Hg]. split.
  - unfold translate, FPIControl.RTOStasks_h.
    destruct (predef !! "_cplusplus") as [c|] eqn:Hc; lines Hg Hc; reflexivity.
  - unfold translate, MCCommandServo.RTOStasks_h.
    destruct (predef !! "_cplusplus") as [c|] eqn:Hc; lines Hg Hc; reflexivity.
Qed.

End Tasks.


(** ** Headers in a larger translation unit *)

Section Composition.
Import Cpp Preproc Table Layout.

Lemma flat_pure (i : item) : flat i = true → mutates i = false.
Proof. destruct i; simpl; try done. by intros ->%negb_true_iff. Qed.

Lemma Forall_flat_pure (h : list item) :
  Forall (λ i, flat i = true) h → Forall (λ i, mutates i = false) h.
Proof. intros H. eapply Forall_impl; [done | apply flat_pure]. Qed.

Lemma step_flat_conds (st st' : state) (i : item) :
  flat i = true → step st i = Some st' → conds st' = conds st.
Proof.
  intros Hf Hs. destruct i; simpl in *; simplify_eq; try done;
    repeat case_match; by simplify_eq.
Qed.

Lemma step_define_holds (st st' : state) (m b : string) :
  conds st = [] → step st (Define m b) = Some st' → macros st' !! m = Some b.
Proof.
  unfold step, active. intros ->. simpl.
  destruct (macros st !! m) as [b'|] eqn:Hl.
  - destruct (String.eqb_spec b b') as [->|]; [|done]. by intros [= <-].
  - intros [= <-]. simpl. apply lookup_insert_eq.
Qed.

(** After a flat header every one of its [#define] lines holds. *)
Lemma run_defines (items : list item) (st st' : state) (m b : string) :
  Forall (λ i, flat i = true) items → conds st = [] →
  run st items = Some st' → In (Define m b) items →
  macros st' !! m = Some b.
Proof.
  intros Hall. revert st.
  induction Hall as [|i items Hi Hall IH]; intros st Hc; simpl; [done|].
  destruct (step st i) as [st1|] eqn:Hs; [|done].
  intros Hr [->|Hin].
  - eapply lookup_weaken; [by eapply step_define_holds|].
    eapply run_macros; [by apply Forall_flat_pure | done].
  - apply (IH st1); [|done|done].
    by rewrite (step_flat_conds _ _ _ Hi Hs).
Qed.

(** Lines that define again what is already defined change nothing. *)
Lemma run_covered (h : list item) (st : state) :
  conds st = [] →
  (∀ i, In i h → ∃ m b, i = Define m b ∧ macros st !! m = Some b) →
  run st h = Some st.
Proof.
  intros Hc. induction h as [|i h IH]; intros Hall; simpl; [done|].
  destruct (Hall i) as (m & b & -> & Hl); [by left|].
  unfold step, active. rewrite Hc, Hl, String.eqb_refl. simpl.
  apply IH. intros j Hj. apply Hall. by right.
Qed.

Lemma covered_by_spec (h1 h2 : list item) (i : item) :
  covered_by h1 h2 = true → In i h2 →
  ∃ m b, i = Define m b ∧ In (Define m b) h1.
Proof.
  unfold covered_by. rewrite forallb_forall. intros Hall Hi.
  specialize (Hall _ Hi). destruct i; try done.
  apply existsb_exists in Hall as (b' & Hb' & ->%String.eqb_eq).
  exists m, b'. split; [done|]. by apply bodies_of_In, list_elem_of_In.
Qed.

Lemma translate_Some (predef : gmap string string) (h : list item) (st : state) :
  translate predef h = Some st ↔
  run (init predef) h = Some st ∧ conds st = [] ∧ links st = [].
Proof.
  unfold translate. split.
  - destruct (run (init predef) h) as [st1|]; [|done].
    destruct (conds st1) eqn:Hc, (links st1) eqn:Hl; try done.
    by intros [= <-].
  - intros (-> & -> & ->). done.
Qed.

(** A flat header followed by lines it covers translates to the same
    state as alone. *)
Lemma translate_covered (predef : gmap string string) (h1 h2 : list item) :
  Forall (λ i, flat i = true) h1 → covered_by h1 h2 = true →
  is_Some (translate predef h1) →
  translate predef (h1 ++ h2) = translate predef h1.
Proof.
  intros Hflat Hcov [st Hst]. rewrite Hst.
  apply translate_Some in Hst as (Hr & Hc & Hl).
  apply translate_Some. rewrite run_app, Hr. split; [|done].
  apply run_covered; [done|]. intros i Hi.
  destruct (covered_by_spec _ _ _ Hcov Hi) as (m & b & -> & Hin).
  exists m, b. split; [done|]. by eapply (run_defines h1 (init predef)).
Qed.

Lemma constants_headers_flat :
  Forall (λ h, Forall (λ i, flat i = true) h) constants_headers.
Proof.
  unfold constants_headers.
  do 2 (apply List.Forall_cons;
          [apply Forall_forall; intros i Hi%list_elem_of_In; revert i Hi;
           apply forallb_forall; vm_compute; reflexivity|]).
  apply List.Forall_nil.
Qed.

Lemma bodies_of_names (h : list item) (m b : string) :
  b ∈ bodies_of h m → m ∈ macro_names h.
Proof.
  induction h as [|i h IH]; simpl; [by intros ?%elem_of_nil|].
  destruct i; try done.
  destruct (String.eqb_spec m m0) as [->|Hne].
  - intros _. apply list_elem_of_here.
  - intros Hb. by apply list_elem_of_further, IH.
Qed.

Lemma constants_header_flat (h : list item) :
  h ∈ constants_headers → Forall (λ i, flat i = true) h.
Proof.
  intros Hh. pose proof constants_headers_flat as Hall.
  rewrite Forall_forall in Hall. by apply Hall.
Qed.

(** X1.  After the Arm_Rev_B constants header the IMU_Control constants
    header adds nothing: wherever the first translates, the two in a row
    translate to the same macros and declarations, since every line of the
    second is a line of the first with the same replacement list. *)
Theorem imu_header_adds_nothing (predef : gmap string string) :
  is_Some (translate predef ArmRevB.constants_h) →
  translate predef (ArmRevB.constants_h ++ IMUControl.constants_h) =
  translate predef ArmRevB.constants_h.
Proof.
  apply translate_covered.
  - apply constants_header_flat, list_elem_of_here.
  - vm_compute. reflexivity.
Qed.

Lemma imu_header_adds_nothing_witness :
  is_Some (translate ∅ ArmRevB.constants_h) ∧
  translate ∅ (ArmRevB.constants_h ++ IMUControl.constants_h) =
  translate ∅ ArmRevB.constants_h.
Proof.
  assert (H : is_Some (translate ∅ ArmRevB.constants_h))
    by (apply is_Some_eval; vm_compute; reflexivity).
  exact (conj H (imu_header_adds_nothing ∅ H)).
Defined.

(** X2.  The IMU_Control constants header has no include guard and needs
    none: wherever it translates, translating it twice in a row gives the
    same state as once. *)
Theorem imu_header_idempotent (predef : gmap string string) :
  is_Some (translate predef IMUControl.constants_h) →
  translate predef (IMUControl.constants_h ++ IMUControl.constants_h) =
  translate predef IMUControl.constants_h.
Proof.
  apply translate_covered.
  - apply constants_header_flat, list_elem_of_further, list_elem_of_here.
  - vm_compute. reflexivity.
Qed.

Lemma imu_header_idempotent_witness :
  is_Some (translate ∅ IMUControl.constants_h) ∧
  translate ∅ (IMUControl.constants_h ++ IMUControl.constants_h) =
  translate ∅ IMUControl.constants_h.
Proof.
  assert (H : is_Some (translate ∅ IMUControl.constants_h))
    by (apply is_Some_eval; vm_compute; reflexivity).
  exact (conj H (imu_header_idempotent ∅ H)).
Defined.





(** X5.  The value of a macro of a constants header does not depend on the
    translation unit: wherever the header translates, whatever was defined
    before it, the macro reads as the value it has when the header stands
    alone. *)
Theorem macro_value_in_any_context (h : list item) (predef : gmap string string)
    (m : string) (v : Z) :
  h ∈ constants_headers → is_Some (translate predef h) →
  macro h m = Some v →
  ∃ b, macro_text predef h m = Some b ∧ Lit.parse_int_literal b = Some v.
Proof.
  intros Hh [st Hst] (b & Hb%bodies_of_In & Hv)%macro_body.
  exists b. split; [|done]. unfold macro_text. rewrite Hst.
  apply translate_Some in Hst as (Hr & _ & _).
  eapply (run_defines h (init predef)); eauto using constants_header_flat.
Qed.

Lemma macro_value_in_any_context_witness :
  ∃ b, macro_text {[ "configUSE_PREEMPTION"%string := "1"%string ]}
         ArmRevB.constants_h "MPU6050_PWR_MGMT_1" = Some b ∧
       Lit.parse_int_literal b = Some 0x6B.
Proof.
  apply (macro_value_in_any_context ArmRevB.constants_h).
  - apply list_elem_of_here.
  - apply is_Some_eval. vm_compute. reflexivity.
  - vm_compute. reflexivity.
Defined.

End Composition.

(** ** Include guards *)

Section Guards.
Import Cpp Preproc Table Layout.

Ltac walk Hg Hc :=
  cbn [app];
  repeat (progress (unfold defined, active;
    cbn [run step init macros conds links decls forallb id andb negb
         effective_linkage map fst app];
    rewrite ?Hg, ?lookup_insert_eq, ?lookup_insert_ne, ?Hc by done)).

Ltac guard_cases predef :=
  unfold translate, FPIControl.RTOStasks_h, MCCommandServo.RTOStasks_h;
  let Hg := fresh "Hg" in
  let Hc := fresh "Hc" in
  destruct (predef !! "RTOS_TASKS_H_") eqn:Hg;
  destruct (predef !! "_cplusplus") eqn:Hc;
  walk Hg Hc; reflexivity.

(** X6.  The include guard works: whatever macros are defined beforehand,
    either [RTOStasks.h] twice in a row translates to the same macros and
    declarations as once. *)
Theorem task_header_idempotent (predef : gmap string string) :
  translate predef (FPIControl.RTOStasks_h ++ FPIControl.RTOStasks_h) =
    translate predef FPIControl.RTOStasks_h ∧
  translate predef (MCCommandServo.RTOStasks_h ++ MCCommandServo.RTOStasks_h) =
    translate predef MCCommandServo.RTOStasks_h.
Proof. split; guard_cases predef. Qed.

(** X7.  The two [RTOStasks.h] share the guard [RTOS_TASKS_H_]: in one
    translation unit the header that comes second declares nothing,
    whatever macros are defined beforehand. *)
Theorem task_headers_exclude_each_other (predef : gmap string string) :
  translate predef (FPIControl.RTOStasks_h ++ MCCommandServo.RTOStasks_h) =
    translate predef FPIControl.RTOStasks_h ∧
  translate predef (MCCommandServo.RTOStasks_h ++ FPIControl.RTOStasks_h) =
    translate predef MCCommandServo.RTOStasks_h.
Proof. split; guard_cases predef. Qed.

(** With the guard free, the six tasks of MC_Command_Servo are not declared
    after the FPI_Control header. *)
Example fpi_first_hides_the_rest :
  decls <$> translate ∅ (FPIControl.RTOStasks_h ++ MCCommandServo.RTOStasks_h) =
    Some [DProto LinkC TVoid "vFPITask" [TPtr TVoid]].
Proof. vm_compute. reflexivity. Qed.

End Guards.

(** ** Invariants of the tables *)

Section Invariants.
Import Cpp Preproc Table Layout.

Lemma registers_complete (p : string) (h : list item) (m : string) (v : Z) :
  String.prefix p m = true → macro h m = Some v → (m, v) ∈ registers p h.
Proof.
  intros Hp Hm. unfold registers. apply list_elem_of_omap.
  exists m. split; [|by rewrite Hp, Hm].
  apply elem_of_remove_dups.
  destruct (macro_body _ _ _ Hm) as (b & Hb & _). by eapply bodies_of_names.
Qed.

Lemma NoDup_snd_inj {A B} (l : list (A * B)) (a1 a2 : A) (b : B) :
  NoDup l.*2 → (a1, b) ∈ l → (a2, b) ∈ l → a1 = a2.
Proof.
  induction l as [|[a b'] l IH]; simpl; [by intros _ ?%elem_of_nil|].
  intros [Hb' Hnd]%NoDup_cons H1 H2.
  apply elem_of_cons in H1 as [H1|H1];
    apply elem_of_cons in H2 as [H2|H2]; simplify_eq; try done.
  - destruct Hb'. by apply (list_elem_of_fmap_2 snd _ (a2, b')).
  - destruct Hb'. by apply (list_elem_of_fmap_2 snd _ (a1, b')).
  - by apply IH.
Qed.

(** X8.  Within one chip the register map is injective: in either
    constants header two macros with the prefix [BNO055_], or two with the
    prefix [MPU6050_], that have the same value are the same macro. *)
Theorem chip_registers_distinct (h : list item) (p m1 m2 : string) (v : Z) :
  h ∈ constants_headers → p ∈ ["BNO055_"; "MPU6050_"]%string →
  String.prefix p m1 = true → String.prefix p m2 = true →
  macro h m1 = Some v → macro h m2 = Some v →
  m1 = m2.
Proof.
  intros Hh Hp Hp1 Hp2 H1 H2.
  apply (NoDup_snd_inj (registers p h) m1 m2 v);
    [|by apply registers_complete..].
  clear -Hh Hp. unfold constants_headers in Hh.
  repeat (apply elem_of_cons in Hh as [->|Hh]);
    [| |by apply elem_of_nil in Hh];
    (repeat (apply elem_of_cons in Hp as [->|Hp]);
     [| |by apply elem_of_nil in Hp]);
    apply (bool_decide_unpack _); vm_compute; reflexivity.
Qed.

Lemma chip_registers_distinct_witness :
  ("BNO055_UNIT_SEL" : string) = "BNO055_UNIT_SEL".
Proof.
  apply (chip_registers_distinct ArmRevB.constants_h "BNO055_"
           "BNO055_UNIT_SEL" "BNO055_UNIT_SEL" 0x3B).
  - apply list_elem_of_here.
  - apply list_elem_of_here.
  - reflexivity.
  - reflexivity.
  - vm_compute. reflexivity.
  - vm_compute. reflexivity.
Defined.

(** Across the chips values do repeat: [0x3B] is a register of both. *)
Example registers_repeat_across_chips :
  macro ArmRevB.constants_h "BNO055_UNIT_SEL" =
  macro ArmRevB.constants_h "MPU6050_ACCEL_XOUT_H".
Proof. vm_compute. reflexivity. Qed.

(** X9.  The Arm_Rev_B header names ten GPIO lines, the eight pin
    constants and the actuator phase and enable macros, and no two of them
    are on the same pin. *)
Theorem gpio_lines_distinct :
  ∃ l, pin_table ArmRevB.constants_h = Some l ∧
       length l = 10%nat ∧ NoDup l.*1 ∧ NoDup l.*2.
Proof.
  eexists. split; [vm_compute; reflexivity|].
  split; [reflexivity|].
  split; apply (bool_decide_unpack _); vm_compute; reflexivity.
Qed.

(** X10.  Every macro body of the constants headers is an integer literal
    of a number from 0 to 255: each register address, bus address and size
    fits one byte. *)
Theorem macro_bodies_are_bytes (h : list item) (m b : string) :
  h ∈ constants_headers → In (Define m b) h →
  ∃ v, Lit.parse_int_literal b = Some v ∧ 0 ≤ v ≤ 255.
Proof.
  intros Hh Hin.
  assert (Hall : forallb (λ i, match i with
                               | Define _ b' => byte_literal b'
                               | _ => true
                               end) h = true).
  { clear -Hh. unfold constants_headers in Hh.
    repeat (apply elem_of_cons in Hh as [->|Hh]);
      [| |by apply elem_of_nil in Hh]; vm_compute; reflexivity. }
  rewrite forallb_forall in Hall. specialize (Hall _ Hin). simpl in Hall.
  unfold byte_literal in Hall.
  destruct (Lit.parse_int_literal b) as [v|]; [|done].
  exists v. split; [done|]. apply andb_true_iff in Hall as [H1 H2]. lia.
Qed.

Lemma macro_bodies_are_bytes_witness :
  ∃ v, Lit.parse_int_literal "0x64" = Some v ∧ 0 ≤ v ≤ 255.
Proof.
  apply (macro_bodies_are_bytes IMUControl.constants_h "EEPROM_SIZE" "0x64").
  - apply list_elem_of_further, list_elem_of_here.
  - left. reflexivity.
Defined.

(** X11.  No initialiser of the Arm_Rev_B header loses anything to its
    declared type: each [constexpr] constant stands for exactly the number
    its initialiser denotes, without rounding, truncation or wrap-around. *)
Theorem initialisers_exact (t : ctype) (x : string) (e : expr) :
  In (Constexpr t x e) ArmRevB.constants_h →
  ∃ v q q', constant ArmRevB.constants_h x = Some v ∧
            literal_Q e = Some q ∧ exact v = Some q' ∧ (q' == q)%Q.
Proof.
  intros Hin.
  assert (Hall : forallb (exact_line ArmRevB.constants_h) ArmRevB.constants_h = true)
    by (vm_compute; reflexivity).
  rewrite forallb_forall in Hall. specialize (Hall _ Hin).
  unfold exact_line in Hall.
  destruct (constant ArmRevB.constants_h x) as [v|]; [|done].
  destruct (literal_Q e) as [q|]; [|done].
  destruct (exact v) as [q'|] eqn:Hv; [|done].
  exists v, q, q'. split; [done|]. split; [done|]. split; [done|].
  by apply Qeq_bool_eq.
Qed.

Lemma initialisers_exact_witness :
  ∃ v q q', constant ArmRevB.constants_h "kRotundaPWMMin" = Some v ∧
            literal_Q (EFloatLit "2.5") = Some q ∧ exact v = Some q' ∧
            (q' == q)%Q.
Proof.
  apply (initialisers_exact TDouble "kRotundaPWMMin" (EFloatLit "2.5")).
  apply (nth_error_In _ 19). reflexivity.
Defined.

End Invariants.
